(** * Verification of [visualization.py]

    A shallow embedding of the four chart builders of [visualization.py]
    ([create_spending_pie_chart], [create_spending_trend_chart],
    [create_budget_comparison_chart], [create_savings_goal_progress]) and
    the properties their specification states about them.

    The model:
    - numbers are exact rationals ([Q]) and equality of amounts is [==];
      rounding of floating point sums is not modelled;
    - a frame of transactions is a typed table: every row has a [date], an
      [amount] and a [category] (the category of an expense row is
      required; that of a row with [amount >= 0] is never read), and the
      frame may have a fourth column, [month], once it has been assigned;
    - frames are objects in a store and a builder receives a reference to
      the caller's frame, as Python passes a [DataFrame]: boolean indexing
      and [.copy()] allocate a new frame, a column assignment updates the
      frame behind the reference;
    - the budget frame is only read ([pd.merge] builds a new frame), so it
      is passed as the list of its rows;
    - [groupby(...).sum()] and [pd.merge(..., how='outer')] follow pandas'
      documented results: one row per distinct key, keys ascending;
    - of a figure, the traces and the title are kept: colours, legends and
      margins play no part in the properties. *)

From Stdlib Require Import ZArith QArith Qabs Ascii List Lia.
From Stdlib Require Import OrderedTypeEx.
From stdpp Require Import base option list sorting strings.

Local Open Scope Q_scope.

(** ** Numbers *)

(** Python's [x < y] on numbers. *)
Definition Qltb (x y : Q) : bool := negb (Qle_bool y x).

(** Python's [x >= y] on numbers. *)
Definition Qgeb (x y : Q) : bool := Qle_bool y x.


(** [Series.sum()]: accumulation from the left, starting at zero. *)
Definition Qsum (l : list Q) : Q := fold_left Qplus l 0.

(** ** Ordered keys

    [groupby] and the outer [merge] return their keys in ascending order:
    of month ordinals, of category strings (code point order), and of
    pairs of both for a two-column key. *)

Class Cmp (K : Type) := cmp : K -> K -> comparison.

#[global] Instance Z_cmp : Cmp Z := Z.compare.
#[global] Instance string_cmp : Cmp string := String.compare.
#[global] Instance prod_cmp {A B} `{Cmp A, Cmp B} : Cmp (A * B) :=
  fun p q => match cmp (fst p) (fst q) with
             | Eq => cmp (snd p) (snd q)
             | c => c
             end.

(** The laws of a key order: [cmp] decides equality and [Lt] is a strict
    total order. *)
Class CmpLaws (K : Type) `{Cmp K} : Prop := {
  cmp_eq : forall a b : K, cmp a b = Eq <-> a = b;
  cmp_antisym : forall a b : K, cmp b a = CompOpp (cmp a b);
  cmp_trans : forall a b c : K, cmp a b = Lt -> cmp b c = Lt -> cmp a c = Lt
}.

Definition key_eqb {K} `{Cmp K} (a b : K) : bool :=
  match cmp a b with Eq => true | _ => false end.

Definition key_lt {K} `{Cmp K} (a b : K) : Prop := cmp a b = Lt.

(** Insertion of a key into an ascending list without repeats. *)
Fixpoint insert_key {K} `{Cmp K} (k : K) (l : list K) : list K :=
  match l with
  | [] => [k]
  | k' :: l' =>
      match cmp k k' with
      | Lt => k :: l
      | Eq => l
      | Gt => k' :: insert_key k l'
      end
  end.

(** The distinct keys of a column, ascending. *)
Definition sorted_keys {K} `{Cmp K} (l : list K) : list K :=
  fold_right insert_key [] l.

(** The rows of one group, in their order in the frame. *)
Definition group {K R} `{Cmp K} (key : R -> K) (k : K) (rows : list R) : list R :=
  List.filter (fun r => key_eqb (key r) k) rows.

(** The sum, over a list of keys, of the sums of their groups. *)
Definition groups_total {K R} `{Cmp K} (key : R -> K) (val : R -> Q)
    (ks : list K) (rows : list R) : Q :=
  Qsum (map (fun k => Qsum (map val (group key k rows))) ks).

(** [rows.groupby(key)[val].sum().reset_index()]: one row per distinct
    key, ascending, holding the sum of the group's values. *)
Definition groupby_sum {K R} `{Cmp K} (key : R -> K) (val : R -> Q)
    (rows : list R) : list (K * Q) :=
  map (fun k => (k, Qsum (map val (group key k rows))))
      (sorted_keys (map key rows)).

(** [Series.unique()]: the distinct values in order of first appearance. *)
Fixpoint unique (l : list string) : list string :=
  match l with
  | [] => []
  | x :: l' => x :: List.filter (fun y => negb (String.eqb y x)) (unique l')
  end.

(** ** Dates and month periods *)

Inductive Month :=
  Jan | Feb | Mar | Apr | May | Jun | Jul | Aug | Sep | Oct | Nov | Dec.

Definition month_number (m : Month) : Z :=
  match m with
  | Jan => 1 | Feb => 2 | Mar => 3 | Apr => 4 | May => 5 | Jun => 6
  | Jul => 7 | Aug => 8 | Sep => 9 | Oct => 10 | Nov => 11 | Dec => 12
  end.

(** A calendar date, the value of a cell of the [date] column. *)
Record Timestamp := mkTimestamp { ts_year : Z; ts_month : Month; ts_day : Z }.

(** [pd.to_datetime] on a column that already holds dates. *)
Definition to_datetime (d : Timestamp) : Timestamp := d.

(** A monthly period is its ordinal: the number of months since 1970-01.
    Periods compare by ordinal. *)
Definition Period := Z.

(** [.dt.to_period('M')] *)
Definition to_period (d : Timestamp) : Period :=
  ((ts_year d - 1970) * 12 + (month_number (ts_month d) - 1))%Z.

Definition period_year (p : Period) : Z := (1970 + p / 12)%Z.
Definition period_month (p : Period) : Z := (p mod 12 + 1)%Z.

Definition digit (n : Z) : ascii :=
  ascii_of_nat (48 + Z.to_nat (n mod 10)).

(** [str] of a monthly period: ["YYYY-MM"], the year on four digits (the
    years a timestamp can hold lie between 1677 and 2262). *)
Definition period_str (p : Period) : string :=
  let y := period_year p in
  let m := period_month p in
  String (digit (y / 1000)) (String (digit (y / 100)) (String (digit (y / 10))
    (String (digit y) (String "-" (String (digit (m / 10))
      (String (digit m) EmptyString)))))).

(** ** Frames *)

Record Transaction := mkTransaction {
  date : Timestamp;
  amount : Q;
  category : string
}.

(** The caller's frame has the columns [date], [amount], [category];
    [create_spending_trend_chart] assigns a fourth column, [month]. *)
Inductive DataFrame :=
| Frame (rows : list Transaction)
| FrameWithMonth (rows : list (Transaction * Period)).

Definition transactions (df : DataFrame) : list Transaction :=
  match df with
  | Frame rows => rows
  | FrameWithMonth rows => map fst rows
  end.

(** [df[mask]] where the mask is a condition on each row. *)
Definition df_filter (p : Transaction -> bool) (df : DataFrame) : DataFrame :=
  match df with
  | Frame rows => Frame (List.filter p rows)
  | FrameWithMonth rows => FrameWithMonth (List.filter (fun r => p (fst r)) rows)
  end.

Definition map_rows (f : Transaction -> Transaction) (df : DataFrame) : DataFrame :=
  match df with
  | Frame rows => Frame (map f rows)
  | FrameWithMonth rows => FrameWithMonth (map (fun r => (f (fst r), snd r)) rows)
  end.

Definition with_amount (f : Q -> Q) (t : Transaction) : Transaction :=
  mkTransaction (date t) (f (amount t)) (category t).

(** [df['amount'] = f(df['amount'])] *)
Definition assign_amount (f : Q -> Q) : DataFrame -> DataFrame :=
  map_rows (with_amount f).

(** [df['date'] = f(df['date'])] *)
Definition assign_date (f : Timestamp -> Timestamp) : DataFrame -> DataFrame :=
  map_rows (fun t => mkTransaction (f (date t)) (amount t) (category t)).

(** [df['month'] = df['date'].dt.to_period('M')]: the column is added, or
    overwritten when the frame has it already. *)
Definition month_rows (txns : list Transaction) : list (Transaction * Period) :=
  map (fun t => (t, to_period (date t))) txns.

Definition assign_month (df : DataFrame) : DataFrame :=
  FrameWithMonth (month_rows (transactions df)).

Record Budget := mkBudget { budget_category : string; budget_amount : Q }.

(** ** Exceptions, the store and the monad of the builders *)

Inductive Exception :=
| KeyError (column : string)
| ZeroDivisionError
| ReferenceError.

Inductive Result (A : Type) :=
| Ok (a : A)
| Raise (e : Exception).
Arguments Ok {A} a.
Arguments Raise {A} e.

(** References to frames are positions in the store. [truedivs] counts the
    true divisions executed so far; no code reads it. *)
Definition ref := nat.

Record Store := mkStore { frames : list DataFrame; truedivs : nat }.

Definition M (A : Type) : Type := Store -> Result (A * Store).

#[global] Instance M_ret : MRet M := fun A a s => Ok (a, s).
#[global] Instance M_bind : MBind M := fun A B f m s =>
  match m s with
  | Ok (a, s') => f a s'
  | Raise e => Raise e
  end.

Definition raise {A} (e : Exception) : M A := fun _ => Raise e.

Definition get (r : ref) : M DataFrame := fun s =>
  match frames s !! r with
  | Some df => Ok (df, s)
  | None => Raise ReferenceError
  end.

Definition put (r : ref) (df : DataFrame) : M unit := fun s =>
  match frames s !! r with
  | Some _ => Ok (tt, mkStore (<[r := df]> (frames s)) (truedivs s))
  | None => Raise ReferenceError
  end.

Definition alloc (df : DataFrame) : M ref := fun s =>
  Ok (length (frames s), mkStore (frames s ++ [df]) (truedivs s)).

(** [df[cond(df)]]: boolean indexing builds a new frame. *)
Definition getitem_mask (r : ref) (p : Transaction -> bool) : M ref :=
  df ← get r; alloc (df_filter p df).

(** [df.copy()] *)
Definition copy (r : ref) : M ref :=
  df ← get r; alloc df.

(** [df[column] = ...]: the frame behind the reference is updated. *)
Definition setitem (r : ref) (f : DataFrame -> DataFrame) : M unit :=
  df ← get r; put r (f df).

(** Reading the [month] column. *)
Definition rows_with_month (df : DataFrame) : M (list (Transaction * Period)) :=
  match df with
  | Frame _ => raise (KeyError "month")
  | FrameWithMonth rows => mret rows
  end.


(** ** Figures *)

Inductive Trace :=
| Pie (labels : list string) (values : list Q)
| Scatter (name : string) (x : list string) (y : list Q) (stackgroup : option string)
| Bar (name : string) (x : list string) (y : list Q)
| Indicator (value reference : Q) (axis_range : Q * Q)
    (steps : list (Q * Q * string)) (threshold : Q).

Record Figure := mkFigure { title : string; data : list Trace }.

(** ** The four builders *)

Definition is_expense (t : Transaction) : bool := Qltb (amount t) 0.
Definition is_income (t : Transaction) : bool := Qltb 0 (amount t).

(** Lines 22-38: the totals per category and the pie drawn from them. *)
Definition category_totals (expenses : list Transaction) : list (string * Q) :=
  groupby_sum category amount expenses.

Definition pie_figure (expenses : list Transaction) : Figure :=
  let totals := category_totals expenses in
  mkFigure "Expenses by Category" [Pie (map fst totals) (map snd totals)].

Definition create_spending_pie_chart (transactions_df : ref) : M Figure :=
  expenses_df ← getitem_mask transactions_df is_expense ≫= copy;
  setitem expenses_df (assign_amount Qabs);;
  expenses ← get expenses_df;
  mret (pie_figure (transactions expenses)).

(** Lines 64-108: the monthly tables and the traces drawn from them. *)
Definition monthly_expenses (expenses : list (Transaction * Period))
  : list (Period * string * Q) :=
  groupby_sum (fun r => (snd r, category (fst r))) (fun r => amount (fst r))
    expenses.

Definition monthly_income (income : list (Transaction * Period))
  : list (Period * Q) :=
  groupby_sum snd (fun r => amount (fst r)) income.

Definition income_trace (table : list (Period * Q)) : Trace :=
  Scatter "Income" (map (fun r => period_str (fst r)) table) (map snd table) None.

Definition expense_traces (table : list (Period * string * Q)) : list Trace :=
  map (fun c =>
         let category_data :=
           List.filter (fun r => String.eqb (snd (fst r)) c) table in
         Scatter c (map (fun r => period_str (fst (fst r))) category_data)
           (map snd category_data) (Some "expenses"))
      (unique (map (fun r => snd (fst r)) table)).

Definition trend_figure (income expenses : list (Transaction * Period)) : Figure :=
  mkFigure "Monthly Income and Expenses Over Time"
    (income_trace (monthly_income income)
       :: expense_traces (monthly_expenses expenses)).

(** The test ['date' in transactions_df.columns] of line 52 holds for
    every frame of the model. Lines 53 and 56 assign to the frame the
    caller passed; the frames written later are copies. *)
Definition create_spending_trend_chart (transactions_df : ref) : M Figure :=
  setitem transactions_df (assign_date to_datetime);;
  setitem transactions_df assign_month;;
  income_df ← getitem_mask transactions_df is_income ≫= copy;
  expenses_df ← getitem_mask transactions_df is_expense ≫= copy;
  setitem expenses_df (assign_amount Qabs);;
  expenses ← get expenses_df ≫= rows_with_month;
  income ← get income_df ≫= rows_with_month;
  mret (trend_figure income expenses).

(** [pd.merge(left, right, on='category', how='outer')]: per key of either
    side, ascending, the pairs of a left and a right row with that key; a
    key with no row on one side gets a missing value ([None]) there. *)
Definition merge_outer (left : list (string * Q)) (right : list Budget)
  : list (string * option Q * option Q) :=
  flat_map (fun k =>
    let ls := map snd (group fst k left) in
    let rs := map budget_amount (group budget_category k right) in
    match ls, rs with
    | [], _ => map (fun b => (k, None, Some b)) rs
    | _, [] => map (fun a => (k, Some a, None)) ls
    | _, _ => flat_map (fun a => map (fun b => (k, Some a, Some b)) rs) ls
    end)
    (sorted_keys (map fst left ++ map budget_category right)).

(** [.fillna(v)] *)
Definition fillna (v : Q) (l : list (string * option Q * option Q))
  : list (string * Q * Q) :=
  map (fun '(k, a, b) => (k, default v a, default v b)) l.

Record ComparisonRow := mkComparisonRow {
  Category : string;
  Actual : Q;
  Budgeted : Q;
  Difference : Q;
  Status : string
}.

Definition comparison_row (r : string * Q * Q) : ComparisonRow :=
  let '(c, a, b) := r in
  let d := b - a in
  mkComparisonRow c a b d (if Qgeb d 0 then "Under Budget" else "Over Budget").

(** Lines 127-142: the table [comparison_df] built from the expense rows
    and the budget. *)
Definition comparison_table (expenses : list Transaction)
    (budget_df : list Budget) : list ComparisonRow :=
  let actual_spending := category_totals expenses in
  map comparison_row (fillna 0 (merge_outer actual_spending budget_df)).

(** Lines 122-142 of [create_budget_comparison_chart]. *)
Definition comparison_df (transactions_df : ref) (budget_df : list Budget)
  : M (list ComparisonRow) :=
  expenses_df ← getitem_mask transactions_df is_expense ≫= copy;
  setitem expenses_df (assign_amount Qabs);;
  expenses ← get expenses_df;
  mret (comparison_table (transactions expenses) budget_df).

Definition bar_figure (table : list ComparisonRow) : Figure :=
  mkFigure "Budget vs. Actual Spending"
    [Bar "Actual" (map Category table) (map Actual table);
     Bar "Budgeted" (map Category table) (map Budgeted table)].

Definition create_budget_comparison_chart (transactions_df : ref)
    (budget_df : list Budget) : M Figure :=
  table ← comparison_df transactions_df budget_df;
  mret (bar_figure table).




(** The slice values of a figure's pie traces, with their labels. *)
Definition pie_slices (fig : Figure) : list (string * Q) :=
  flat_map (fun tr => match tr with
                      | Pie labels values => zip labels values
                      | _ => []
                      end) (data fig).

(** The rows a builder aggregates as expenses: those with a negative
    amount, the amount replaced by its absolute value. *)
Definition expense_rows (txns : list Transaction) : list Transaction :=
  map (with_amount Qabs) (List.filter is_expense txns).

(** The store after a builder that filtered, copied and rewrote frames:
    the frames it allocated follow the caller's. *)
Definition extend (s : Store) (new : list DataFrame) : Store :=
  mkStore (frames s ++ new) (truedivs s).

(** The income and expense rows of the trend chart, with their months. *)
Definition income_month_rows (txns : list Transaction)
  : list (Transaction * Period) :=
  List.filter (fun r => is_income (fst r)) (month_rows txns).

Definition expense_month_rows (txns : list Transaction)
  : list (Transaction * Period) :=
  map (fun r => (with_amount Qabs (fst r), snd r))
      (List.filter (fun r => is_expense (fst r)) (month_rows txns)).




(** The points of one category in the table of monthly expenses. *)
Definition category_points (c : string) (table : list (Period * string * Q))
  : list (Period * Q) :=
  map (fun r => (fst (fst r), snd r))
      (List.filter (fun r => String.eqb (snd (fst r)) c) table).

(** The caller's frame after [create_spending_trend_chart]. *)
Definition store_with_month (s : Store) (r : ref) (df : DataFrame) : Store :=
  mkStore (<[r := FrameWithMonth (month_rows (transactions df))]> (frames s))
          (truedivs s).

(** ** Sample inputs

    The transactions of the specification's scenario, a store whose only
    frame holds them, and the same with one more transaction of amount
    zero. *)
Definition sample_transactions : list Transaction :=
  [mkTransaction (mkTimestamp 2024 Jan 5) (-50) "Food";
   mkTransaction (mkTimestamp 2024 Jan 10) (-30) "Food";
   mkTransaction (mkTimestamp 2024 Feb 1) 2000 "Salary"].

Definition sample_store : Store := mkStore [Frame sample_transactions] 0.

Definition zero_transaction : Transaction :=
  mkTransaction (mkTimestamp 2024 Jan 20) 0 "Food".

Definition sample_zero_store : Store :=
  mkStore [Frame (firstn 2 sample_transactions ++ zero_transaction
                    :: skipn 2 sample_transactions)] 0.

(** * Properties *)

Lemma Qltb_lt x y : Qltb x y = true <-> x < y.
Proof.
  unfold Qltb. rewrite negb_true_iff, <- not_true_iff_false, Qle_bool_iff.
  split; [apply Qnot_le_lt | apply Qlt_not_le].
Qed.

Lemma Qltb_ge x y : Qltb x y = false <-> y <= x.
Proof. unfold Qltb. rewrite negb_false_iff. apply Qle_bool_iff. Qed.

Lemma fold_left_Qplus l a : fold_left Qplus l a == a + Qsum l.
Proof.
  unfold Qsum. revert a. induction l as [|x l IH]; intros a; simpl.
  - ring.
  - rewrite IH, (IH (0 + x)). ring.
Qed.

Lemma Qsum_nil : Qsum [] = 0.
Proof. reflexivity. Qed.

Lemma Qsum_cons x l : Qsum (x :: l) == x + Qsum l.
Proof. unfold Qsum at 1. simpl. rewrite fold_left_Qplus. ring. Qed.

Lemma Qsum_nonneg l : Forall (fun x => 0 <= x) l -> 0 <= Qsum l.
Proof.
  induction 1 as [|x l Hx _ IH].
  - rewrite Qsum_nil. apply Qle_refl.
  - rewrite Qsum_cons. replace 0 with (0 + 0) by reflexivity.
    now apply Qplus_le_compat.
Qed.

Lemma Qsum_pos l : l <> [] -> Forall (fun x => 0 < x) l -> 0 < Qsum l.
Proof.
  intros Hne Hall. destruct Hall as [|x l Hx Hl]; [congruence|].
  rewrite Qsum_cons.
  apply Qlt_le_trans with (x + 0).
  - now rewrite Qplus_0_r.
  - apply Qplus_le_compat; [apply Qle_refl|].
    apply Qsum_nonneg. eapply Forall_impl; [exact Hl|].
    intros a. apply Qlt_le_weak.
Qed.

(** ** Key orders *)

Lemma Z_cmp_laws : CmpLaws Z.
Proof.
  split; unfold cmp, Z_cmp.
  - apply Z.compare_eq_iff.
  - intros a b. apply Z.compare_antisym.
  - intros a b c. rewrite !Z.compare_lt_iff. lia.
Qed.

Lemma string_cmp_laws : CmpLaws string.
Proof.
  split; unfold cmp, string_cmp.
  - apply String_as_OT.cmp_eq.
  - intros a b. apply String.compare_antisym.
  - intros a b c Hab Hbc.
    apply String_as_OT.cmp_lt. apply String_as_OT.cmp_lt in Hab, Hbc.
    eapply String_as_OT.lt_trans; eassumption.
Qed.

Lemma prod_cmp_laws {A B} `{CmpLaws A, CmpLaws B} : CmpLaws (A * B).
Proof.
  split; unfold cmp, prod_cmp.
  - intros [a1 b1] [a2 b2]; simpl.
    destruct (cmp a1 a2) eqn:Ha.
    + apply cmp_eq in Ha as ->. rewrite cmp_eq. split; congruence.
    + split; [discriminate|]. intros [= -> ->].
      assert (cmp a2 a2 = Eq) by now apply cmp_eq. congruence.
    + split; [discriminate|]. intros [= -> ->].
      assert (cmp a2 a2 = Eq) by now apply cmp_eq. congruence.
  - intros [a1 b1] [a2 b2]; simpl.
    rewrite (cmp_antisym a1 a2). destruct (cmp a1 a2); simpl; auto.
    apply cmp_antisym.
  - intros [a1 b1] [a2 b2] [a3 b3]; simpl.
    destruct (cmp a1 a2) eqn:H12; [| |discriminate].
    + apply cmp_eq in H12 as ->. intros Hb.
      destruct (cmp a2 a3); auto. intros Hc. exact (cmp_trans _ _ _ Hb Hc).
    + intros _. destruct (cmp a2 a3) eqn:H23; [| |discriminate]; intros _.
      * apply cmp_eq in H23 as <-. now rewrite H12.
      * now rewrite (cmp_trans _ _ _ H12 H23).
Qed.

#[global] Existing Instances Z_cmp_laws string_cmp_laws prod_cmp_laws.

(** ** Sorted distinct keys and groups *)

Section keys.
Context {K : Type} `{CmpLaws K}.

Lemma cmp_refl (a : K) : cmp a a = Eq.
Proof. now apply cmp_eq. Qed.

Lemma key_lt_irrefl (a : K) : ~ key_lt a a.
Proof. unfold key_lt. rewrite cmp_refl. discriminate. Qed.

Lemma cmp_gt_lt (a b : K) : cmp a b = Gt -> key_lt b a.
Proof. unfold key_lt. intros Hab. now rewrite cmp_antisym, Hab. Qed.

Lemma key_eqb_eq (a b : K) : key_eqb a b = true <-> a = b.
Proof.
  unfold key_eqb. rewrite <- cmp_eq.
  destruct (cmp a b); split; congruence.
Qed.

Lemma key_eqb_refl (a : K) : key_eqb a a = true.
Proof. now apply key_eqb_eq. Qed.

Lemma key_eqb_neq (a b : K) : key_eqb a b = false <-> a <> b.
Proof. rewrite <- key_eqb_eq. destruct (key_eqb a b); split; congruence. Qed.

Lemma elem_of_insert_key (x k : K) (l : list K) :
  x ∈ insert_key k l <-> x = k \/ x ∈ l.
Proof.
  induction l as [|k' l IH]; simpl.
  - rewrite list_elem_of_singleton, elem_of_nil. tauto.
  - destruct (cmp k k') eqn:Hc.
    + apply cmp_eq in Hc as ->. rewrite elem_of_cons. tauto.
    + rewrite !elem_of_cons. tauto.
    + rewrite !elem_of_cons, IH. tauto.
Qed.

Lemma insert_key_sorted (k : K) (l : list K) :
  StronglySorted key_lt l -> StronglySorted key_lt (insert_key k l).
Proof.
  induction 1 as [|k' l Hl IH Hk']; simpl.
  - repeat constructor.
  - destruct (cmp k k') eqn:Hc.
    + now constructor.
    + constructor; [now constructor|].
      constructor; [exact Hc|].
      eapply Forall_impl; [exact Hk'|].
      intros y Hy. exact (cmp_trans _ _ _ Hc Hy).
    + constructor; [exact IH|].
      apply Forall_forall. intros y Hy.
      apply elem_of_insert_key in Hy as [->|Hy].
      * now apply cmp_gt_lt.
      * rewrite Forall_forall in Hk'. now apply Hk'.
Qed.

Lemma sorted_keys_sorted (l : list K) : StronglySorted key_lt (sorted_keys l).
Proof.
  induction l as [|k l IH]; simpl.
  - constructor.
  - now apply insert_key_sorted.
Qed.

Lemma elem_of_sorted_keys (x : K) (l : list K) : x ∈ sorted_keys l <-> x ∈ l.
Proof.
  induction l as [|k l IH]; simpl.
  - reflexivity.
  - rewrite elem_of_insert_key, elem_of_cons, IH. reflexivity.
Qed.

Lemma sorted_NoDup (l : list K) : StronglySorted key_lt l -> NoDup l.
Proof.
  induction 1 as [|k l Hl IH Hk]; constructor; [|exact IH].
  intros Hin. rewrite Forall_forall in Hk.
  exact (key_lt_irrefl k (Hk k Hin)).
Qed.

Lemma sorted_keys_NoDup (l : list K) : NoDup (sorted_keys l).
Proof. apply sorted_NoDup, sorted_keys_sorted. Qed.

Context {R : Type} (key : R -> K) (val : R -> Q).

Lemma group_cons_eq (r : R) (rows : list R) :
  group key (key r) (r :: rows) = r :: group key (key r) rows.
Proof. unfold group. simpl. now rewrite key_eqb_refl. Qed.

Lemma group_cons_ne (k : K) (r : R) (rows : list R) :
  key r <> k -> group key k (r :: rows) = group key k rows.
Proof.
  intros Hne. unfold group. simpl.
  apply key_eqb_neq in Hne. now rewrite Hne.
Qed.

Lemma elem_of_group (k : K) (r : R) (rows : list R) :
  r ∈ group key k rows <-> r ∈ rows /\ key r = k.
Proof.
  unfold group. rewrite !list_elem_of_In, filter_In, key_eqb_eq. reflexivity.
Qed.

Lemma group_nil_iff (k : K) (rows : list R) :
  group key k rows = [] <-> k ∉ map key rows.
Proof.
  induction rows as [|r rows IH]; simpl.
  - split; [intros _; apply not_elem_of_nil|reflexivity].
  - rewrite not_elem_of_cons, <- IH.
    unfold group. simpl. destruct (key_eqb (key r) k) eqn:Hk.
    + apply key_eqb_eq in Hk. split; [discriminate|]. intros [Hne _]. congruence.
    + apply key_eqb_neq in Hk. split; [intros Hnil|intros [_ Hnil]]; auto.
Qed.

Lemma groups_total_cons_notin (ks : list K) (r : R) (rows : list R) :
  key r ∉ ks ->
  groups_total key val ks (r :: rows) == groups_total key val ks rows.
Proof.
  unfold groups_total. induction ks as [|k ks IH]; intros Hni; cbn [map].
  - reflexivity.
  - apply not_elem_of_cons in Hni as [Hne Hni].
    rewrite !Qsum_cons, (IH Hni), (group_cons_ne k r rows Hne). reflexivity.
Qed.

Lemma groups_total_cons_in (ks : list K) (r : R) (rows : list R) :
  NoDup ks -> key r ∈ ks ->
  groups_total key val ks (r :: rows) == val r + groups_total key val ks rows.
Proof.
  induction 1 as [|k ks Hk Hnd IH]; intros Hin.
  - now apply elem_of_nil in Hin.
  - unfold groups_total in *. cbn [map]. rewrite !Qsum_cons.
    apply elem_of_cons in Hin as [Heq|Hin].
    + subst k. rewrite group_cons_eq. cbn [map]. rewrite Qsum_cons.
      pose proof (groups_total_cons_notin ks r rows Hk) as Hrest.
      unfold groups_total in Hrest. rewrite Hrest. ring.
    + assert (key r <> k) as Hne
        by (intros Heq; apply Hk; rewrite <- Heq; exact Hin).
      rewrite (group_cons_ne k r rows Hne), (IH Hin). ring.
Qed.

Lemma groups_total_nil (ks : list K) : groups_total key val ks [] == 0.
Proof.
  unfold groups_total. induction ks as [|k ks IH]; cbn [map].
  - reflexivity.
  - rewrite Qsum_cons, IH. reflexivity.
Qed.

Lemma groups_total_all (ks : list K) (rows : list R) :
  NoDup ks -> (forall r, r ∈ rows -> key r ∈ ks) ->
  groups_total key val ks rows == Qsum (map val rows).
Proof.
  intros Hnd. induction rows as [|r rows IH]; intros Hkeys.
  - apply groups_total_nil.
  - cbn [map]. rewrite Qsum_cons, groups_total_cons_in, IH.
    + reflexivity.
    + intros r' Hr'. apply Hkeys. now right.
    + exact Hnd.
    + apply Hkeys. now left.
Qed.

(** What [groupby_sum] returns, row by row. *)
Lemma map_fst_groupby_sum (rows : list R) :
  map fst (groupby_sum key val rows) = sorted_keys (map key rows).
Proof.
  unfold groupby_sum. rewrite map_map. simpl. apply map_id.
Qed.

Lemma elem_of_groupby_sum (k : K) (v : Q) (rows : list R) :
  (k, v) ∈ groupby_sum key val rows <->
  k ∈ map key rows /\ v = Qsum (map val (group key k rows)).
Proof.
  unfold groupby_sum. rewrite list_elem_of_fmap.
  split.
  - intros (k' & [= -> ->] & Hk).
    split; [now rewrite elem_of_sorted_keys in Hk | reflexivity].
  - intros [Hk ->]. exists k. split; [reflexivity|].
    now apply elem_of_sorted_keys.
Qed.

End keys.

(** ** Running the store operations *)

Lemma bind_ok {A B} (m : M A) (f : A -> M B) s a s' :
  m s = Ok (a, s') -> (m ≫= f) s = f a s'.
Proof. intros Hm. unfold mbind, M_bind. now rewrite Hm. Qed.

Lemma get_ok s r df : frames s !! r = Some df -> get r s = Ok (df, s).
Proof. intros Hr. unfold get. now rewrite Hr. Qed.

Lemma setitem_ok s r df f :
  frames s !! r = Some df ->
  setitem r f s = Ok (tt, mkStore (<[r := f df]> (frames s)) (truedivs s)).
Proof.
  intros Hr. unfold setitem. rewrite (bind_ok _ _ _ _ _ (get_ok _ _ _ Hr)).
  unfold put. now rewrite Hr.
Qed.

Lemma extend_lookup_old s new r df :
  frames s !! r = Some df -> frames (extend s new) !! r = Some df.
Proof. intros Hr. simpl. now apply lookup_app_l_Some. Qed.

Lemma extend_lookup_new s new (i : nat) :
  frames (extend s new) !! (length (frames s) + i)%nat = new !! i.
Proof. simpl. rewrite lookup_app_r by lia. f_equal. lia. Qed.

Lemma getitem_mask_copy_ok s r df p :
  frames s !! r = Some df ->
  (getitem_mask r p ≫= copy) s
  = Ok (S (length (frames s)), extend s [df_filter p df; df_filter p df]).
Proof.
  intros Hr. unfold getitem_mask, copy, alloc.
  rewrite (bind_ok _ _ _ _ _ (bind_ok _ _ _ _ _ (get_ok _ _ _ Hr))).
  erewrite bind_ok; cycle 1.
  - apply get_ok. simpl. apply list_lookup_middle. reflexivity.
  - unfold extend. simpl. rewrite length_app, <- app_assoc. simpl.
    do 3 f_equal. lia.
Qed.

Lemma setitem_new_ok s a b f :
  setitem (S (length (frames s))) f (extend s [a; b])
  = Ok (tt, extend s [a; f b]).
Proof.
  erewrite setitem_ok; cycle 1.
  - replace (S (length (frames s))) with (length (frames s) + 1)%nat by lia.
    rewrite extend_lookup_new. reflexivity.
  - unfold extend. simpl. do 3 f_equal.
    rewrite insert_app_r_alt by lia.
    replace (S (length (frames s)) - length (frames s))%nat with 1%nat by lia.
    reflexivity.
Qed.

Lemma get_new_ok s a b :
  get (S (length (frames s))) (extend s [a; b]) = Ok (b, extend s [a; b]).
Proof.
  apply get_ok.
  replace (S (length (frames s))) with (length (frames s) + 1)%nat by lia.
  now rewrite extend_lookup_new.
Qed.

Lemma transactions_df_filter p df :
  transactions (df_filter p df) = List.filter p (transactions df).
Proof.
  destruct df as [rows|rows]; simpl; [reflexivity|].
  induction rows as [|r rows IH]; simpl; [reflexivity|].
  destruct (p (fst r)); simpl; now rewrite IH.
Qed.

Lemma transactions_map_rows f df :
  transactions (map_rows f df) = map f (transactions df).
Proof.
  destruct df as [rows|rows]; simpl; [reflexivity|].
  now rewrite !map_map.
Qed.

Lemma transactions_expenses df :
  transactions (assign_amount Qabs (df_filter is_expense df))
  = expense_rows (transactions df).
Proof.
  unfold assign_amount, expense_rows.
  now rewrite transactions_map_rows, transactions_df_filter.
Qed.

(** The expense frame every builder derives from the caller's frame. *)
Lemma expenses_frame_ok {A} s r df (k : DataFrame -> M A) :
  frames s !! r = Some df ->
  (expenses_df ← getitem_mask r is_expense ≫= copy;
   setitem expenses_df (assign_amount Qabs);;
   expenses ← get expenses_df; k expenses) s
  = k (assign_amount Qabs (df_filter is_expense df))
      (extend s [df_filter is_expense df;
                 assign_amount Qabs (df_filter is_expense df)]).
Proof.
  intros Hr.
  rewrite (bind_ok _ _ _ _ _ (getitem_mask_copy_ok _ _ _ _ Hr)).
  rewrite (bind_ok _ _ _ _ _ (setitem_new_ok _ _ _ _)).
  now rewrite (bind_ok _ _ _ _ _ (get_new_ok _ _ _)).
Qed.

(** ** Running the builders *)

Lemma pie_chart_run s r df :
  frames s !! r = Some df ->
  create_spending_pie_chart r s
  = Ok (pie_figure (expense_rows (transactions df)),
        extend s [df_filter is_expense df;
                  assign_amount Qabs (df_filter is_expense df)]).
Proof.
  intros Hr. unfold create_spending_pie_chart.
  rewrite (expenses_frame_ok _ _ _ _ Hr).
  unfold mret, M_ret. now rewrite transactions_expenses.
Qed.

Lemma comparison_df_run s r df budget :
  frames s !! r = Some df ->
  comparison_df r budget s
  = Ok (comparison_table (expense_rows (transactions df)) budget,
        extend s [df_filter is_expense df;
                  assign_amount Qabs (df_filter is_expense df)]).
Proof.
  intros Hr. unfold comparison_df.
  rewrite (expenses_frame_ok _ _ _ _ Hr).
  unfold mret, M_ret. now rewrite transactions_expenses.
Qed.

Lemma budget_chart_run s r df budget :
  frames s !! r = Some df ->
  create_budget_comparison_chart r budget s
  = Ok (bar_figure (comparison_table (expense_rows (transactions df)) budget),
        extend s [df_filter is_expense df;
                  assign_amount Qabs (df_filter is_expense df)]).
Proof.
  intros Hr. unfold create_budget_comparison_chart.
  now rewrite (bind_ok _ _ _ _ _ (comparison_df_run _ _ _ _ Hr)).
Qed.

Lemma transactions_assign_date df :
  transactions (assign_date to_datetime df) = transactions df.
Proof.
  unfold assign_date. rewrite transactions_map_rows.
  rewrite <- (map_id (transactions df)) at 2.
  apply map_ext. now intros [d a c].
Qed.

Lemma get_rows_with_month_ok s r rows :
  frames s !! r = Some (FrameWithMonth rows) ->
  (get r ≫= rows_with_month) s = Ok (rows, s).
Proof. intros Hr. now rewrite (bind_ok _ _ _ _ _ (get_ok _ _ _ Hr)). Qed.

Lemma trend_chart_run s r df :
  frames s !! r = Some df ->
  exists new,
    create_spending_trend_chart r s
    = Ok (trend_figure (income_month_rows (transactions df))
                       (expense_month_rows (transactions df)),
          extend (store_with_month s r df) new).
Proof.
  intros Hr. unfold create_spending_trend_chart.
  set (rows := month_rows (transactions df)).
  assert (Hlt : (r < length (frames s))%nat) by (eapply lookup_lt_Some; eauto).
  rewrite (bind_ok _ _ _ _ _ (setitem_ok _ _ _ _ Hr)).
  erewrite bind_ok; cycle 1.
  { apply setitem_ok. simpl. now apply list_lookup_insert_eq. }
  simpl frames. simpl truedivs. rewrite list_insert_insert_eq.
  unfold assign_month. rewrite transactions_assign_date. fold rows.
  fold (store_with_month s r df).
  assert (Hr2 : frames (store_with_month s r df) !! r = Some (FrameWithMonth rows)).
  { simpl. now apply list_lookup_insert_eq. }
  rewrite (bind_ok _ _ _ _ _ (getitem_mask_copy_ok _ _ _ is_income Hr2)).
  set (s3 := extend (store_with_month s r df) _).
  assert (Hr3 : frames s3 !! r = Some (FrameWithMonth rows))
    by now apply extend_lookup_old.
  rewrite (bind_ok _ _ _ _ _ (getitem_mask_copy_ok _ _ _ is_expense Hr3)).
  rewrite (bind_ok _ _ _ _ _ (setitem_new_ok _ _ _ _)).
  simpl df_filter. unfold assign_amount. simpl map_rows.
  set (s5 := extend s3 _).
  erewrite bind_ok; cycle 1.
  { apply get_rows_with_month_ok. subst s5.
    replace (S (length (frames s3))) with (length (frames s3) + 1)%nat by lia.
    rewrite extend_lookup_new. reflexivity. }
  erewrite bind_ok; cycle 1.
  { apply get_rows_with_month_ok. subst s5. apply extend_lookup_old. subst s3.
    replace (S (length (frames (store_with_month s r df))))
      with (length (frames (store_with_month s r df)) + 1)%nat by lia.
    rewrite extend_lookup_new. reflexivity. }
  unfold mret, M_ret.
  eexists. subst s5 s3. unfold extend at 1. simpl frames. simpl truedivs.
  rewrite <- app_assoc. reflexivity.
Qed.

(** ** Expense rows *)

Lemma is_expense_lt t : is_expense t = true <-> amount t < 0.
Proof. apply Qltb_lt. Qed.

Lemma is_expense_ge t : is_expense t = false <-> 0 <= amount t.
Proof. apply Qltb_ge. Qed.

Lemma is_income_lt t : is_income t = true <-> 0 < amount t.
Proof. apply Qltb_lt. Qed.

Lemma is_income_le t : is_income t = false <-> amount t <= 0.
Proof. apply Qltb_ge. Qed.

Lemma filter_drop {A} (p : A -> bool) l1 x l2 :
  p x = false -> List.filter p (l1 ++ x :: l2) = List.filter p (l1 ++ l2).
Proof. intros Hx. rewrite !List.filter_app. simpl. now rewrite Hx. Qed.

Lemma expense_rows_drop l1 t l2 :
  0 <= amount t -> expense_rows (l1 ++ t :: l2) = expense_rows (l1 ++ l2).
Proof.
  intros Ht. unfold expense_rows. rewrite filter_drop; [reflexivity|].
  now apply is_expense_ge.
Qed.

Lemma elem_of_expense_rows e txns :
  e ∈ expense_rows txns <->
  exists t, t ∈ txns /\ amount t < 0 /\ e = with_amount Qabs t.
Proof.
  unfold expense_rows. rewrite list_elem_of_In, in_map_iff.
  split.
  - intros (t & <- & Ht). apply filter_In in Ht as [Ht Hneg].
    exists t. rewrite list_elem_of_In, <- is_expense_lt. auto.
  - intros (t & Ht & Hneg & ->). exists t. split; [reflexivity|].
    apply filter_In. rewrite <- list_elem_of_In, is_expense_lt. auto.
Qed.

Lemma expense_rows_positive txns :
  Forall (fun e => 0 < amount e) (expense_rows txns).
Proof.
  apply Forall_forall. intros e He.
  apply elem_of_expense_rows in He as (t & _ & Hneg & ->). simpl.
  rewrite Qabs_neg by now apply Qlt_le_weak.
  now apply (Qopp_lt_compat (amount t) 0).
Qed.


Lemma zip_map_fst_snd {A B} (l : list (A * B)) : zip (map fst l) (map snd l) = l.
Proof. induction l as [|[a b] l IH]; simpl; [reflexivity|]. now rewrite IH. Qed.

Lemma pie_slices_pie_figure expenses :
  pie_slices (pie_figure expenses) = category_totals expenses.
Proof.
  unfold pie_slices, pie_figure. simpl. now rewrite zip_map_fst_snd, app_nil_r.
Qed.

(** Every total of [category_totals] over expense rows is the sum of a
    non-empty group of positive amounts. *)
Lemma category_totals_positive txns c v :
  (c, v) ∈ category_totals (expense_rows txns) ->
  0 < v /\ exists t, t ∈ txns /\ amount t < 0 /\ category t = c.
Proof.
  unfold category_totals. rewrite elem_of_groupby_sum. intros [Hc ->].
  split.
  - apply Qsum_pos.
    + intros Hnil. apply map_eq_nil in Hnil.
      now apply (group_nil_iff category) in Hnil.
    + apply Forall_map. apply Forall_forall. intros e He.
      apply elem_of_group in He as [He _].
      pose proof (expense_rows_positive txns) as Hpos.
      rewrite Forall_forall in Hpos. now apply Hpos.
  - apply list_elem_of_fmap in Hc as (e & -> & He).
    apply elem_of_expense_rows in He as (t & Ht & Hneg & ->).
    exists t. auto.
Qed.

(** * The claims *)





(** ** The outer merge *)

Section unique_keys.
Context {K : Type} `{CmpLaws K} {R : Type} (key : R -> K).

Lemma group_NoDup_in (r : R) (rows : list R) :
  NoDup (map key rows) -> r ∈ rows -> group key (key r) rows = [r].
Proof.
  induction rows as [|x rows IH]; cbn [map]; intros Hnd Hin.
  - now apply elem_of_nil in Hin.
  - apply NoDup_cons in Hnd as [Hx Hnd].
    apply elem_of_cons in Hin as [->|Hin].
    + rewrite group_cons_eq. f_equal. now apply group_nil_iff.
    + rewrite group_cons_ne; [now apply IH|].
      intros Heq. apply Hx. rewrite Heq.
      apply list_elem_of_fmap. now exists r.
Qed.

Lemma group_NoDup_cases (k : K) (rows : list R) :
  NoDup (map key rows) ->
  ((k ∉ map key rows) /\ group key k rows = []) \/
  (exists r, r ∈ rows /\ key r = k /\ group key k rows = [r]).
Proof.
  intros Hnd. destruct (group key k rows) as [|x g] eqn:Hg.
  - left. split; [now apply group_nil_iff|reflexivity].
  - right. assert (Hx : x ∈ group key k rows) by (rewrite Hg; now left).
    apply elem_of_group in Hx as [Hx <-].
    exists x. rewrite <- Hg. auto using group_NoDup_in.
Qed.
End unique_keys.

Lemma elem_of_merge_outer left right k a b :
  (k, a, b) ∈ merge_outer left right ->
  k ∈ map fst left ++ map budget_category right /\
  (a = None /\ k ∉ map fst left \/ exists v, a = Some v /\ (k, v) ∈ left) /\
  (b = None /\ k ∉ map budget_category right \/
   exists w, b = Some w /\ mkBudget k w ∈ right).
Proof.
  unfold merge_outer. rewrite list_elem_of_In, in_flat_map.
  intros (k' & Hk' & Hin).
  rewrite <- list_elem_of_In, elem_of_sorted_keys in Hk'.
  assert (Hl : forall v, v ∈ map snd (group fst k' left) -> (k', v) ∈ left).
  { intros v Hv. apply list_elem_of_fmap in Hv as ([k1 v1] & -> & Hg).
    apply elem_of_group in Hg as [Hg Hk]. simpl in *. now subst. }
  assert (Hr : forall w, w ∈ map budget_amount (group budget_category k' right) ->
                         mkBudget k' w ∈ right).
  { intros w Hw. apply list_elem_of_fmap in Hw as ([k1 w1] & -> & Hg).
    apply elem_of_group in Hg as [Hg Hk]. simpl in *. now subst. }
  assert (Hln : map snd (group fst k' left) = [] -> k' ∉ map fst left).
  { intros Hnil. apply map_eq_nil in Hnil. now apply group_nil_iff in Hnil. }
  assert (Hrn : map budget_amount (group budget_category k' right) = [] ->
                k' ∉ map budget_category right).
  { intros Hnil. apply map_eq_nil in Hnil. now apply group_nil_iff in Hnil. }
  destruct (map snd (group fst k' left)) as [|a0 ls] eqn:Hls.
  - apply in_map_iff in Hin as (w & [= <- <- <-] & Hw).
    rewrite <- list_elem_of_In in Hw. split; [exact Hk'|]. split.
    + left. auto.
    + right. exists w. auto.
  - destruct (map budget_amount (group budget_category k' right)) as [|b0 rs] eqn:Hrs.
    + apply in_map_iff in Hin as (v & [= <- <- <-] & Hv).
      rewrite <- list_elem_of_In in Hv. split; [exact Hk'|]. split.
      * right. exists v. auto.
      * left. auto.
    + apply in_flat_map in Hin as (v & Hv & Hin).
      apply in_map_iff in Hin as (w & [= <- <- <-] & Hw).
      rewrite <- list_elem_of_In in Hv, Hw. split; [exact Hk'|]. split.
      * right. exists v. auto.
      * right. exists w. auto.
Qed.

Lemma map_flat_map_single {A B C} (f : A -> list B) (g : B -> C) (h : A -> C)
    (l : list A) :
  (forall x, x ∈ l -> map g (f x) = [h x]) ->
  map g (flat_map f l) = map h l.
Proof.
  induction l as [|x l IH]; intros Hf; simpl; [reflexivity|].
  rewrite map_app, Hf by now left. simpl. f_equal.
  apply IH. intros y Hy. apply Hf. now right.
Qed.

(** With distinct keys on both sides the merge has one row per key. *)
Lemma merge_outer_keys left right :
  NoDup (map fst left) -> NoDup (map budget_category right) ->
  map (fun r => fst (fst r)) (merge_outer left right)
  = sorted_keys (map fst left ++ map budget_category right).
Proof.
  intros Hl Hr. unfold merge_outer.
  rewrite (map_flat_map_single _ _ (fun k => k)); [apply map_id|].
  intros k Hk. rewrite elem_of_sorted_keys, elem_of_app in Hk.
  destruct (group_NoDup_cases fst k left Hl) as [[Hnl ->]|(x & _ & _ & ->)];
    destruct (group_NoDup_cases budget_category k right Hr)
      as [[Hnr ->]|(y & _ & _ & ->)]; simpl; try reflexivity.
  destruct Hk; contradiction.
Qed.

Lemma comparison_table_Category expenses budget :
  map Category (comparison_table expenses budget)
  = map (fun r => fst (fst r)) (merge_outer (category_totals expenses) budget).
Proof.
  unfold comparison_table, fillna. rewrite !map_map.
  apply map_ext. now intros [[k a] b].
Qed.

Lemma elem_of_comparison_table row expenses budget :
  row ∈ comparison_table expenses budget ->
  exists k a b,
    (k, a, b) ∈ merge_outer (category_totals expenses) budget /\
    row = comparison_row (k, default 0 a, default 0 b).
Proof.
  unfold comparison_table, fillna. rewrite map_map.
  intros Hrow. apply list_elem_of_fmap in Hrow as ([[k a] b] & -> & Hin).
  now exists k, a, b.
Qed.

Lemma map_fst_category_totals expenses :
  map fst (category_totals expenses) = sorted_keys (map category expenses).
Proof. apply map_fst_groupby_sum. Qed.

Lemma elem_of_actual_categories txns c :
  c ∈ map category (expense_rows txns) <->
  exists t, t ∈ txns /\ amount t < 0 /\ category t = c.
Proof.
  rewrite list_elem_of_fmap. split.
  - intros (e & -> & He). apply elem_of_expense_rows in He as (t & Ht & Hn & ->).
    exists t. auto.
  - intros (t & Ht & Hn & <-). exists (with_amount Qabs t).
    split; [reflexivity|]. apply elem_of_expense_rows. exists t. auto.
Qed.

Section sorted_ext.
Context {K : Type} `{CmpLaws K}.

Lemma sorted_ext (l1 l2 : list K) :
  StronglySorted key_lt l1 -> StronglySorted key_lt l2 ->
  (forall x, x ∈ l1 <-> x ∈ l2) -> l1 = l2.
Proof.
  intros Hs1. revert l2.
  induction Hs1 as [|a l1 Hs1 IH Ha]; intros l2 Hs2 Hext.
  - destruct l2 as [|b l2]; [reflexivity|].
    exfalso. apply (not_elem_of_nil b), Hext. now left.
  - destruct Hs2 as [|b l2 Hs2 Hb].
    { exfalso. apply (not_elem_of_nil a), Hext. now left. }
    rewrite Forall_forall in Ha, Hb.
    assert (a = b) as <-.
    { assert (Hab : a ∈ b :: l2) by (apply Hext; now left).
      assert (Hba : b ∈ a :: l1) by (apply Hext; now left).
      apply elem_of_cons in Hab as [?|Hab]; [assumption|].
      apply elem_of_cons in Hba as [?|Hba]; [congruence|].
      exfalso. apply (key_lt_irrefl a).
      exact (cmp_trans _ _ _ (Ha _ Hba) (Hb _ Hab)). }
    f_equal. apply IH; [exact Hs2|].
    intros x. split; intros Hx.
    + assert (Hx' : x ∈ a :: l2) by (apply Hext; now right).
      apply elem_of_cons in Hx' as [->|]; [|assumption].
      exfalso. exact (key_lt_irrefl a (Ha _ Hx)).
    + assert (Hx' : x ∈ a :: l1) by (apply Hext; now right).
      apply elem_of_cons in Hx' as [->|]; [|assumption].
      exfalso. exact (key_lt_irrefl a (Hb _ Hx)).
Qed.

Lemma sorted_keys_app_sorted_keys (l1 l2 : list K) :
  sorted_keys (sorted_keys l1 ++ l2) = sorted_keys (l1 ++ l2).
Proof.
  apply sorted_ext; try apply sorted_keys_sorted.
  intros x. rewrite !elem_of_sorted_keys, !elem_of_app, elem_of_sorted_keys.
  reflexivity.
Qed.
End sorted_ext.

Lemma map_category_expense_rows txns :
  map category (expense_rows txns) = map category (List.filter is_expense txns).
Proof. unfold expense_rows. now rewrite map_map. Qed.

(** The categories of the rows of [comparison_table]. *)
Lemma comparison_table_categories txns budget :
  NoDup (map budget_category budget) ->
  map Category (comparison_table (expense_rows txns) budget)
  = sorted_keys (map category (List.filter is_expense txns)
                 ++ map budget_category budget).
Proof.
  intros Hb. rewrite comparison_table_Category, merge_outer_keys.
  - now rewrite map_fst_category_totals, sorted_keys_app_sorted_keys,
      map_category_expense_rows.
  - rewrite map_fst_category_totals. apply sorted_keys_NoDup.
  - exact Hb.
Qed.

Lemma comparison_table_sides txns budget row :
  row ∈ comparison_table (expense_rows txns) budget ->
  (Actual row = 0 /\ (Category row ∉ map category (expense_rows txns)) \/
   0 < Actual row /\ Category row ∈ map category (expense_rows txns)) /\
  (Budgeted row = 0 /\ (Category row ∉ map budget_category budget) \/
   mkBudget (Category row) (Budgeted row) ∈ budget).
Proof.
  intros Hrow.
  apply elem_of_comparison_table in Hrow as (k & a & b & Hin & ->).
  apply elem_of_merge_outer in Hin as (_ & Ha & Hb). simpl. split.
  - destruct Ha as [[-> Hk]|(v & -> & Hv)]; simpl.
    + left. split; [reflexivity|].
      rewrite map_fst_category_totals in Hk.
      intros Hc. apply Hk. now apply elem_of_sorted_keys.
    + right. pose proof (category_totals_positive _ _ _ Hv) as [Hpos Ht].
      split; [exact Hpos|]. now apply elem_of_actual_categories.
  - destruct Hb as [[-> Hk]|(w & -> & Hw)]; simpl; auto.
Qed.

Lemma comparison_row_difference r :
  Difference (comparison_row r) = Budgeted (comparison_row r) - Actual (comparison_row r).
Proof. now destruct r as [[k a] b]. Qed.

Lemma comparison_row_status r :
  (0 <= Difference (comparison_row r) /\ Status (comparison_row r) = "Under Budget") \/
  (Difference (comparison_row r) < 0 /\ Status (comparison_row r) = "Over Budget").
Proof.
  destruct r as [[k a] b]. simpl. unfold Qgeb.
  destruct (Qle_bool 0 (b - a)) eqn:Hd.
  - left. split; [now apply Qle_bool_iff|reflexivity].
  - right. split; [|reflexivity].
    apply Qnot_le_lt. intros Hle. apply Qle_bool_iff in Hle. congruence.
Qed.

Lemma comparison_table_rows expenses budget row :
  row ∈ comparison_table expenses budget -> exists r, row = comparison_row r.
Proof.
  intros Hrow. apply elem_of_comparison_table in Hrow as (k & a & b & _ & ->).
  eauto.
Qed.

(** C2: with distinct categories in the budget, the table of
    [create_budget_comparison_chart] has exactly one row per category of
    the union of the expense categories and the budget categories; a
    category of one side only has the value zero on the other side; no
    category of either side is missing. *)
Theorem comparison_rows_are_the_union s r df budget :
  NoDup (map budget_category budget) ->
  frames s !! r = Some df ->
  exists table s',
    comparison_df r budget s = Ok (table, s') /\
    map Category table
      = sorted_keys (map category (List.filter is_expense (transactions df))
                     ++ map budget_category budget) /\
    NoDup (map Category table) /\
    (forall c, c ∈ map Category table <->
       (exists t, t ∈ transactions df /\ amount t < 0 /\ category t = c) \/
       c ∈ map budget_category budget) /\
    (forall row, row ∈ table ->
       ((Category row ∉ map budget_category budget) -> Budgeted row = 0) /\
       (~ (exists t, t ∈ transactions df /\ amount t < 0 /\
                     category t = Category row) -> Actual row = 0)).
Proof.
  intros Hb Hr. eexists _, _. split; [exact (comparison_df_run _ _ _ _ Hr)|].
  pose proof (comparison_table_categories (transactions df) budget Hb) as Hcat.
  split; [exact Hcat|]. split; [|split].
  - rewrite Hcat. apply sorted_keys_NoDup.
  - intros c. rewrite Hcat, elem_of_sorted_keys, elem_of_app.
    now rewrite <- map_category_expense_rows, elem_of_actual_categories.
  - intros row Hrow.
    apply comparison_table_sides in Hrow as [Ha Hbud]. split.
    + intros Hni. destruct Hbud as [[-> _]|Hin]; [reflexivity|].
      exfalso. apply Hni. apply list_elem_of_fmap. eexists. split; [|exact Hin].
      reflexivity.
    + intros Hni. destruct Ha as [[-> _]|[_ Hin]]; [reflexivity|].
      exfalso. apply Hni. now apply elem_of_actual_categories.
Qed.


Lemma comparison_rows_are_the_union_witness :
  exists table s',
    comparison_df 0%nat [mkBudget "Food" 100; mkBudget "Rent" 900] sample_store
      = Ok (table, s') /\
    map Category table
      = sorted_keys (map category (List.filter is_expense
                                     (transactions (Frame sample_transactions)))
                     ++ map budget_category
                          [mkBudget "Food" 100; mkBudget "Rent" 900]) /\
    NoDup (map Category table) /\
    (forall c, c ∈ map Category table <->
       (exists t, t ∈ transactions (Frame sample_transactions) /\
                  amount t < 0 /\ category t = c) \/
       c ∈ map budget_category [mkBudget "Food" 100; mkBudget "Rent" 900]) /\
    (forall row, row ∈ table ->
       ((Category row ∉ map budget_category
                          [mkBudget "Food" 100; mkBudget "Rent" 900]) ->
        Budgeted row = 0) /\
       (~ (exists t, t ∈ transactions (Frame sample_transactions) /\
                     amount t < 0 /\ category t = Category row) ->
        Actual row = 0)).
Proof.
  apply (comparison_rows_are_the_union sample_store 0%nat
           (Frame sample_transactions)).
  - simpl. repeat constructor; rewrite ?elem_of_cons, ?elem_of_nil;
      intros Hin; repeat destruct Hin as [Hin|Hin]; discriminate || assumption.
  - reflexivity.
Defined.


(** C5: every row of the table of [create_budget_comparison_chart] has
    [Difference = Budgeted - Actual], and its [Status] is ["Under Budget"]
    exactly when [Difference >= 0] and ["Over Budget"] otherwise; with the
    budget [Food: 100] and the actual spending [Food = 80] the table is the
    row [Food, 80, 100, 20, "Under Budget"]. *)
Theorem comparison_difference_and_status s r df budget :
  frames s !! r = Some df ->
  exists table s',
    comparison_df r budget s = Ok (table, s') /\
    (forall row, row ∈ table ->
       Difference row = Budgeted row - Actual row /\
       (Status row = "Under Budget" <-> 0 <= Difference row) /\
       (~ 0 <= Difference row -> Status row = "Over Budget")) /\
    exists s0,
      comparison_df 0%nat [mkBudget "Food" 100] sample_store
      = Ok ([mkComparisonRow "Food" 80 100 20 "Under Budget"], s0).
Proof.
  intros Hr. eexists _, _. split; [exact (comparison_df_run _ _ _ _ Hr)|]. split.
  - intros row Hrow. apply comparison_table_rows in Hrow as [x ->].
    split; [apply comparison_row_difference|].
    destruct (comparison_row_status x) as [[Hd ->]|[Hd ->]].
    + split; [tauto|]. intros Hn. contradiction.
    + split; [|reflexivity]. split; [discriminate|].
      intros Hle. exfalso. exact (Qlt_not_le _ _ Hd Hle).
  - eexists. reflexivity.
Qed.

Lemma comparison_difference_and_status_witness :
  exists table s',
    comparison_df 0%nat [mkBudget "Food" 100] sample_store = Ok (table, s') /\
    (forall row, row ∈ table ->
       Difference row = Budgeted row - Actual row /\
       (Status row = "Under Budget" <-> 0 <= Difference row) /\
       (~ 0 <= Difference row -> Status row = "Over Budget")) /\
    exists s0,
      comparison_df 0%nat [mkBudget "Food" 100] sample_store
      = Ok ([mkComparisonRow "Food" 80 100 20 "Under Budget"], s0).
Proof.
  apply (comparison_difference_and_status sample_store 0%nat
           (Frame sample_transactions)).
  reflexivity.
Defined.

(** ** The monthly tables *)

Lemma filter_month_rows (p : Transaction -> bool) txns :
  List.filter (fun r => p (fst r)) (month_rows txns)
  = month_rows (List.filter p txns).
Proof.
  unfold month_rows. induction txns as [|t txns IH]; simpl; [reflexivity|].
  destruct (p t); simpl; now rewrite IH.
Qed.

Lemma income_month_rows_eq txns :
  income_month_rows txns = month_rows (List.filter is_income txns).
Proof. apply filter_month_rows. Qed.

Lemma expense_month_rows_eq txns :
  expense_month_rows txns
  = map (fun r => (with_amount Qabs (fst r), snd r))
        (month_rows (List.filter is_expense txns)).
Proof. unfold expense_month_rows. now rewrite filter_month_rows. Qed.



Lemma elem_of_income_months m txns :
  m ∈ map snd (income_month_rows txns) <->
  exists t, t ∈ txns /\ 0 < amount t /\ to_period (date t) = m.
Proof.
  rewrite income_month_rows_eq. unfold month_rows. rewrite map_map. simpl.
  rewrite list_elem_of_fmap. split.
  - intros (t & -> & Ht). rewrite list_elem_of_In in Ht.
    apply filter_In in Ht as [Ht Hpos].
    exists t. rewrite list_elem_of_In, <- is_income_lt. auto.
  - intros (t & Ht & Hpos & <-). exists t. split; [reflexivity|].
    rewrite list_elem_of_In. apply filter_In.
    rewrite <- list_elem_of_In, is_income_lt. auto.
Qed.



(** C8: a transaction whose amount is zero contributes to no output: the
    pie chart, the trend chart (income series and expense series), the
    comparison table and the budget chart are the same without it. *)
Theorem zero_amount_contributes_nothing s1 r1 s2 r2 l1 t l2 budget :
  amount t == 0 ->
  frames s1 !! r1 = Some (Frame (l1 ++ t :: l2)) ->
  frames s2 !! r2 = Some (Frame (l1 ++ l2)) ->
  (exists fig s1' s2',
     create_spending_pie_chart r1 s1 = Ok (fig, s1') /\
     create_spending_pie_chart r2 s2 = Ok (fig, s2')) /\
  (exists fig s1' s2',
     create_spending_trend_chart r1 s1 = Ok (fig, s1') /\
     create_spending_trend_chart r2 s2 = Ok (fig, s2')) /\
  (exists table s1' s2',
     comparison_df r1 budget s1 = Ok (table, s1') /\
     comparison_df r2 budget s2 = Ok (table, s2')) /\
  (exists fig s1' s2',
     create_budget_comparison_chart r1 budget s1 = Ok (fig, s1') /\
     create_budget_comparison_chart r2 budget s2 = Ok (fig, s2')).
Proof.
  intros Hz H1 H2.
  assert (Hge : 0 <= amount t) by (rewrite Hz; apply Qle_refl).
  assert (Hle : amount t <= 0) by (rewrite Hz; apply Qle_refl).
  assert (He : expense_rows (l1 ++ t :: l2) = expense_rows (l1 ++ l2))
    by now apply expense_rows_drop.
  split; [|split; [|split]].
  - eexists _, _, _. split; [exact (pie_chart_run _ _ _ H1)|].
    rewrite (pie_chart_run _ _ _ H2). simpl transactions. now rewrite He.
  - destruct (trend_chart_run _ _ _ H1) as [new1 Hrun1].
    destruct (trend_chart_run _ _ _ H2) as [new2 Hrun2].
    eexists _, _, _. split; [exact Hrun1|].
    rewrite Hrun2. simpl transactions.
    rewrite !income_month_rows_eq, !expense_month_rows_eq.
    rewrite (filter_drop is_income), (filter_drop is_expense); [reflexivity| |].
    + now apply is_expense_ge.
    + now apply is_income_le.
  - eexists _, _, _. split; [exact (comparison_df_run _ _ _ _ H1)|].
    rewrite (comparison_df_run _ _ _ _ H2). simpl transactions. now rewrite He.
  - eexists _, _, _. split; [exact (budget_chart_run _ _ _ _ H1)|].
    rewrite (budget_chart_run _ _ _ _ H2). simpl transactions. now rewrite He.
Qed.

Lemma zero_amount_contributes_nothing_witness :
  (exists fig s1' s2',
     create_spending_pie_chart 0%nat sample_zero_store = Ok (fig, s1') /\
     create_spending_pie_chart 0%nat sample_store = Ok (fig, s2')) /\
  (exists fig s1' s2',
     create_spending_trend_chart 0%nat sample_zero_store = Ok (fig, s1') /\
     create_spending_trend_chart 0%nat sample_store = Ok (fig, s2')) /\
  (exists table s1' s2',
     comparison_df 0%nat [mkBudget "Food" 100] sample_zero_store
       = Ok (table, s1') /\
     comparison_df 0%nat [mkBudget "Food" 100] sample_store = Ok (table, s2')) /\
  (exists fig s1' s2',
     create_budget_comparison_chart 0%nat [mkBudget "Food" 100] sample_zero_store
       = Ok (fig, s1') /\
     create_budget_comparison_chart 0%nat [mkBudget "Food" 100] sample_store
       = Ok (fig, s2')).
Proof.
  apply (zero_amount_contributes_nothing sample_zero_store 0%nat sample_store 0%nat
           (firstn 2 sample_transactions) zero_transaction
           (skipn 2 sample_transactions)).
  - reflexivity.
  - reflexivity.
  - reflexivity.
Defined.

(** ** The savings gauge *)











(** ** Effects on the caller's frame *)

Lemma pie_chart_frame_unchanged s r df :
  frames s !! r = Some df ->
  exists fig s',
    create_spending_pie_chart r s = Ok (fig, s') /\ frames s' !! r = Some df.
Proof.
  intros Hr. eexists _, _. split; [exact (pie_chart_run _ _ _ Hr)|].
  now apply extend_lookup_old.
Qed.

Lemma budget_chart_frame_unchanged s r df budget :
  frames s !! r = Some df ->
  exists fig s',
    create_budget_comparison_chart r budget s = Ok (fig, s') /\
    frames s' !! r = Some df.
Proof.
  intros Hr. eexists _, _. split; [exact (budget_chart_run _ _ _ _ Hr)|].
  now apply extend_lookup_old.
Qed.

Lemma trend_chart_frame_after s r df :
  frames s !! r = Some df ->
  exists fig s',
    create_spending_trend_chart r s = Ok (fig, s') /\
    frames s' !! r = Some (FrameWithMonth (month_rows (transactions df))).
Proof.
  intros Hr. destruct (trend_chart_run _ _ _ Hr) as [new Hrun].
  eexists _, _. split; [exact Hrun|].
  apply extend_lookup_old. simpl. apply list_lookup_insert_eq.
  eapply lookup_lt_Some; eauto.
Qed.

(** C4 fails on [create_spending_trend_chart]: called on the frame of
    the sample transactions (columns [date], [amount], [category]) it
    leaves the caller's frame with a fourth column, [month]. *)
Theorem trend_chart_adds_month_column :
  exists fig s',
    create_spending_trend_chart 0%nat sample_store = Ok (fig, s') /\
    frames sample_store !! 0%nat = Some (Frame sample_transactions) /\
    frames s' !! 0%nat
    = Some (FrameWithMonth
              [(mkTransaction (mkTimestamp 2024 Jan 5) (-50) "Food", 648%Z);
               (mkTransaction (mkTimestamp 2024 Jan 10) (-30) "Food", 648%Z);
               (mkTransaction (mkTimestamp 2024 Feb 1) 2000 "Salary", 649%Z)]) /\
    frames s' !! 0%nat <> frames sample_store !! 0%nat.
Proof.
  eexists _, _. split; [reflexivity|]. split; [reflexivity|].
  split; [reflexivity|]. discriminate.
Qed.

(** * Further properties of the builders *)

(** ** Effects on the store *)

Lemma map_fst_month_rows txns : map fst (month_rows txns) = txns.
Proof.
  unfold month_rows. rewrite map_map. simpl. apply map_id.
Qed.

(** X1: [create_spending_pie_chart] and
    [create_budget_comparison_chart] write to copies only: every frame of
    the caller's store, the one passed included, is the same after the
    call, and no division is executed. *)
Theorem reading_builders_preserve_store s r df budget :
  frames s !! r = Some df ->
  (exists fig s',
     create_spending_pie_chart r s = Ok (fig, s') /\
     (forall r' d, frames s !! r' = Some d -> frames s' !! r' = Some d) /\
     truedivs s' = truedivs s) /\
  (exists fig s',
     create_budget_comparison_chart r budget s = Ok (fig, s') /\
     (forall r' d, frames s !! r' = Some d -> frames s' !! r' = Some d) /\
     truedivs s' = truedivs s).
Proof.
  intros Hr. split.
  - eexists _, _. split; [exact (pie_chart_run _ _ _ Hr)|].
    split; [|reflexivity]. intros r' d. apply extend_lookup_old.
  - eexists _, _. split; [exact (budget_chart_run _ _ _ _ Hr)|].
    split; [|reflexivity]. intros r' d. apply extend_lookup_old.
Qed.

Lemma reading_builders_preserve_store_witness :
  (exists fig s',
     create_spending_pie_chart 0%nat sample_store = Ok (fig, s') /\
     (forall r' d, frames sample_store !! r' = Some d ->
                   frames s' !! r' = Some d) /\
     truedivs s' = truedivs sample_store) /\
  (exists fig s',
     create_budget_comparison_chart 0%nat [mkBudget "Food" 100] sample_store
       = Ok (fig, s') /\
     (forall r' d, frames sample_store !! r' = Some d ->
                   frames s' !! r' = Some d) /\
     truedivs s' = truedivs sample_store).
Proof.
  apply (reading_builders_preserve_store sample_store 0%nat
           (Frame sample_transactions)).
  reflexivity.
Defined.



(** X3: a second call of [create_spending_trend_chart] on the frame the
    first call left draws the same figure and leaves that frame as it is:
    the [month] column is overwritten with the same months. *)
Theorem trend_chart_twice s r df :
  frames s !! r = Some df ->
  exists fig s1 s2,
    create_spending_trend_chart r s = Ok (fig, s1) /\
    create_spending_trend_chart r s1 = Ok (fig, s2) /\
    frames s2 !! r = frames s1 !! r.
Proof.
  intros Hr. destruct (trend_chart_run _ _ _ Hr) as [new Hrun].
  assert (Hlt : (r < length (frames s))%nat) by (eapply lookup_lt_Some; eauto).
  set (df1 := FrameWithMonth (month_rows (transactions df))).
  assert (Hr1 : frames (extend (store_with_month s r df) new) !! r = Some df1).
  { apply extend_lookup_old. simpl. now apply list_lookup_insert_eq. }
  destruct (trend_chart_run _ _ _ Hr1) as [new' Hrun'].
  assert (Ht : transactions df1 = transactions df) by apply map_fst_month_rows.
  eexists _, _, _. split; [exact Hrun|]. split.
  - rewrite Hrun', Ht. reflexivity.
  - rewrite Hr1. apply extend_lookup_old. unfold store_with_month.
    cbn [frames]. rewrite Ht. apply list_lookup_insert_eq.
    simpl. rewrite length_app, length_insert. lia.
Qed.

Lemma trend_chart_twice_witness :
  exists fig s1 s2,
    create_spending_trend_chart 0%nat sample_store = Ok (fig, s1) /\
    create_spending_trend_chart 0%nat s1 = Ok (fig, s2) /\
    frames s2 !! 0%nat = frames s1 !! 0%nat.
Proof.
  apply (trend_chart_twice sample_store 0%nat (Frame sample_transactions)).
  reflexivity.
Defined.

(** ** The slices of the pie chart *)





Lemma sorted_keys_nil_iff {K} `{CmpLaws K} (l : list K) :
  sorted_keys l = [] <-> l = [].
Proof.
  split; [|now intros ->].
  destruct l as [|k l]; [reflexivity|]. intros Hnil. exfalso.
  apply (not_elem_of_nil k). rewrite <- Hnil.
  apply elem_of_sorted_keys. now left.
Qed.

(** X5: [create_spending_pie_chart] raises nothing on a frame without
    expenses, the empty frame included, and its chart has no slice exactly
    when no transaction has a negative amount. *)
Theorem pie_chart_without_expenses s r df :
  frames s !! r = Some df ->
  exists fig s',
    create_spending_pie_chart r s = Ok (fig, s') /\
    (pie_slices fig = [] <->
     forall t, t ∈ transactions df -> 0 <= amount t).
Proof.
  intros Hr. eexists _, _. split; [exact (pie_chart_run _ _ _ Hr)|].
  rewrite pie_slices_pie_figure. unfold category_totals, groupby_sum.
  split.
  - intros Hnil t Ht. apply map_eq_nil, sorted_keys_nil_iff, map_eq_nil in Hnil.
    apply Qnot_lt_le. intros Hneg.
    apply (not_elem_of_nil (with_amount Qabs t)). rewrite <- Hnil.
    apply elem_of_expense_rows. exists t. auto.
  - intros Hall.
    assert (Hnil : expense_rows (transactions df) = []).
    { destruct (expense_rows (transactions df)) as [|e l] eqn:He; [reflexivity|].
      exfalso. assert (Hin : e ∈ expense_rows (transactions df))
        by (rewrite He; now left).
      apply elem_of_expense_rows in Hin as (t & Ht & Hneg & _).
      exact (Qlt_not_le _ _ Hneg (Hall t Ht)). }
    now rewrite Hnil.
Qed.

Lemma pie_chart_without_expenses_witness :
  exists fig s',
    create_spending_pie_chart 0%nat (mkStore [Frame []] 0) = Ok (fig, s') /\
    (pie_slices fig = [] <->
     forall t, t ∈ transactions (Frame []) -> 0 <= amount t).
Proof.
  apply (pie_chart_without_expenses (mkStore [Frame []] 0) 0%nat (Frame [])).
  reflexivity.
Defined.

(** ** The order of the rows *)

Section permuted_rows.
Context {K : Type} `{CmpLaws K} {R : Type} (key : R -> K) (val : R -> Q).




End permuted_rows.





(** ** The expense series of the trend chart *)





Lemma elem_of_expense_keys m c txns :
  (m, c) ∈ map (fun r : Transaction * Period => (snd r, category (fst r)))
               (expense_month_rows txns) <->
  exists t, t ∈ txns /\ amount t < 0 /\ category t = c /\ to_period (date t) = m.
Proof.
  rewrite expense_month_rows_eq. unfold month_rows. rewrite !map_map. simpl.
  rewrite list_elem_of_fmap. split.
  - intros (t & [= -> ->] & Ht). rewrite list_elem_of_In in Ht.
    apply filter_In in Ht as [Ht Hneg].
    exists t. rewrite list_elem_of_In, <- is_expense_lt. auto.
  - intros (t & Ht & Hneg & <- & <-). exists t. split; [reflexivity|].
    rewrite list_elem_of_In. apply filter_In.
    rewrite <- list_elem_of_In, is_expense_lt. auto.
Qed.

Lemma elem_of_category_points m v c (table : list (Period * string * Q)) :
  (m, v) ∈ category_points c table <-> (m, c, v) ∈ table.
Proof.
  unfold category_points. rewrite list_elem_of_fmap. split.
  - intros ([[m' c'] v'] & [= -> ->] & Hin). simpl in *.
    rewrite list_elem_of_In in Hin. apply filter_In in Hin as [Hin Hc].
    simpl in Hc. apply String.eqb_eq in Hc as ->. now apply list_elem_of_In.
  - intros Hin. exists (m, c, v). split; [reflexivity|].
    rewrite list_elem_of_In. apply filter_In. simpl.
    rewrite String.eqb_refl, <- list_elem_of_In. auto.
Qed.

Lemma category_points_sorted c (table : list (Period * string * Q)) :
  StronglySorted key_lt (map fst table) ->
  StronglySorted Z.lt (map fst (category_points c table)).
Proof.
  unfold category_points. rewrite map_map. cbn [fst].
  induction table as [|[[m c'] v] table IH]; cbn [map List.filter fst snd];
    intros Hs; [constructor|].
  apply StronglySorted_inv in Hs as [Hs Hall].
  destruct (String.eqb_spec c' c) as [->|Hne]; [|now apply IH].
  cbn [map fst]. constructor; [now apply IH|].
  apply Forall_forall. intros m' Hm'.
  apply list_elem_of_fmap in Hm' as ([[m2 c2] v2] & -> & Hin).
  rewrite list_elem_of_In in Hin. apply filter_In in Hin as [Hin Hc].
  cbn [fst snd] in *. apply String.eqb_eq in Hc as ->.
  rewrite Forall_forall in Hall.
  assert (Hlt : key_lt (m, c) (m2, c)).
  { apply Hall. apply list_elem_of_fmap. exists (m2, c, v2).
    split; [reflexivity|]. now apply list_elem_of_In. }
  unfold key_lt, cmp, prod_cmp in Hlt. cbn [fst snd] in Hlt.
  destruct (cmp m m2) eqn:Hm; [|exact Hm|discriminate].
  rewrite cmp_refl in Hlt. discriminate.
Qed.



(** ** The values of the comparison table *)




Lemma Qsum_app l1 l2 : Qsum (l1 ++ l2) == Qsum l1 + Qsum l2.
Proof.
  induction l1 as [|x l1 IH]; cbn [app].
  - rewrite Qsum_nil. ring.
  - rewrite !Qsum_cons, IH. ring.
Qed.

Lemma Qsum_flat_map {A} (f : A -> list Q) (g : A -> Q) (l : list A) :
  (forall x, x ∈ l -> Qsum (f x) == g x) ->
  Qsum (flat_map f l) == Qsum (map g l).
Proof.
  induction l as [|x l IH]; intros Hf; cbn [flat_map map]; [reflexivity|].
  rewrite Qsum_app, Qsum_cons, Hf, IH; [reflexivity| |now left].
  intros y Hy. apply Hf. now right.
Qed.

Lemma map_flat_map {A B C} (g : B -> C) (f : A -> list B) (l : list A) :
  map g (flat_map f l) = flat_map (fun x => map g (f x)) l.
Proof.
  induction l as [|x l IH]; cbn [flat_map]; [reflexivity|].
  now rewrite map_app, IH.
Qed.

Lemma group_length_le_1 {K R} `{CmpLaws K} (key : R -> K) (k : K) (rows : list R) :
  NoDup (map key rows) -> (length (group key k rows) <= 1)%nat.
Proof.
  intros Hnd.
  destruct (group_NoDup_cases key k rows Hnd) as [[_ ->]|(x & _ & _ & ->)];
    simpl; lia.
Qed.

(** The budget side of the rows the merge builds for one key. *)
Lemma merge_key_budgeted (k : string) (ls rs : list Q) :
  (length ls <= 1)%nat ->
  Qsum (map (fun r : string * option Q * option Q => default 0 (snd r))
            match ls, rs with
            | [], _ => map (fun b => (k, None, Some b)) rs
            | _, [] => map (fun a => (k, Some a, None)) ls
            | _, _ => flat_map (fun a => map (fun b => (k, Some a, Some b)) rs) ls
            end)
  == Qsum rs.
Proof.
  intros Hls. destruct ls as [|a [|a' ls]]; [| |simpl in Hls; lia].
  - rewrite map_map. cbn [snd default]. now rewrite map_id.
  - destruct rs as [|b rs]; [reflexivity|].
    cbn [flat_map]. rewrite app_nil_r, map_map. cbn [snd default].
    now rewrite map_id.
Qed.


Lemma map_Budgeted_comparison_table expenses budget :
  map Budgeted (comparison_table expenses budget)
  = map (fun r : string * option Q * option Q => default 0 (snd r))
        (merge_outer (category_totals expenses) budget).
Proof.
  unfold comparison_table, fillna. rewrite !map_map.
  apply map_ext. now intros [[k a] b].
Qed.


Lemma NoDup_category_totals expenses : NoDup (map fst (category_totals expenses)).
Proof. rewrite map_fst_category_totals. apply sorted_keys_NoDup. Qed.

(** X9: every budget record is counted once in the comparison table,
    duplicate categories included: the [Budgeted] column sums to the sum
    of the budget amounts. *)
Theorem comparison_budgeted_total s r df budget :
  frames s !! r = Some df ->
  exists table s',
    comparison_df r budget s = Ok (table, s') /\
    Qsum (map Budgeted table) == Qsum (map budget_amount budget).
Proof.
  intros Hr. eexists _, _. split; [exact (comparison_df_run _ _ _ _ Hr)|].
  set (e := expense_rows (transactions df)).
  set (keys := sorted_keys (map fst (category_totals e) ++ map budget_category budget)).
  assert (Hkeys : NoDup keys) by apply sorted_keys_NoDup.
  rewrite map_Budgeted_comparison_table. unfold merge_outer.
  rewrite map_flat_map. fold keys.
  rewrite (Qsum_flat_map _
             (fun k => Qsum (map budget_amount (group budget_category k budget)))).
  - apply (groups_total_all budget_category budget_amount keys budget Hkeys).
    intros b Hb. apply elem_of_sorted_keys, elem_of_app. right.
    apply list_elem_of_fmap. now exists b.
  - intros k _. apply merge_key_budgeted. rewrite length_map.
    apply group_length_le_1, NoDup_category_totals.
Qed.

Lemma comparison_budgeted_total_witness :
  exists table s',
    comparison_df 0%nat [mkBudget "Food" 100; mkBudget "Food" 40] sample_store
      = Ok (table, s') /\
    Qsum (map Budgeted table)
    == Qsum (map budget_amount [mkBudget "Food" 100; mkBudget "Food" 40]).
Proof.
  apply (comparison_budgeted_total sample_store 0%nat (Frame sample_transactions)).
  reflexivity.
Defined.



(** ** The savings gauge, positive goals *)





(** ** Month labels *)

Lemma N_of_digit (n : Z) : N_of_ascii (digit n) = (48 + Z.to_N (n mod 10))%N.
Proof.
  unfold digit.
  assert (Hn : (0 <= n mod 10 < 10)%Z) by (apply Z.mod_pos_bound; lia).
  rewrite <- (N2Nat.id (N_of_ascii _)). fold (nat_of_ascii (ascii_of_nat
    (48 + Z.to_nat (n mod 10)))).
  rewrite nat_ascii_embedding by lia.
  lia.
Qed.

Lemma ascii_compare_digit (a b : Z) :
  Ascii.compare (digit a) (digit b) = (a mod 10 ?= b mod 10)%Z.
Proof.
  unfold Ascii.compare. rewrite !N_of_digit.
  assert (Ha : (0 <= a mod 10 < 10)%Z) by (apply Z.mod_pos_bound; lia).
  assert (Hb : (0 <= b mod 10 < 10)%Z) by (apply Z.mod_pos_bound; lia).
  destruct (Z.compare_spec (a mod 10) (b mod 10)) as [Heq|Hlt|Hgt].
  - rewrite Heq. apply N.compare_refl.
  - apply N.compare_lt_iff. lia.
  - apply N.compare_gt_iff. lia.
Qed.

Lemma decimal4 (y : Z) :
  (0 <= y <= 9999)%Z ->
  (y = 1000 * ((y / 1000) mod 10) + 100 * ((y / 100) mod 10)
       + 10 * ((y / 10) mod 10) + y mod 10)%Z.
Proof.
  intros Hy.
  rewrite (Z.mod_small (y / 1000)) by (split; [apply Z.div_pos|apply Z.div_lt_upper_bound]; lia).
  pose proof (Z.div_mod y 10 ltac:(lia)) as H0.
  pose proof (Z.div_mod (y / 10) 10 ltac:(lia)) as H1.
  pose proof (Z.div_mod (y / 100) 10 ltac:(lia)) as H2.
  replace (y / 100)%Z with (y / 10 / 10)%Z in *
    by (rewrite Z.div_div by lia; reflexivity).
  replace (y / 1000)%Z with (y / 10 / 10 / 10)%Z
    by (rewrite !Z.div_div by lia; reflexivity).
  lia.
Qed.

Lemma decimal2 (m : Z) :
  (0 <= m <= 99)%Z -> (m = 10 * ((m / 10) mod 10) + m mod 10)%Z.
Proof.
  intros Hm.
  rewrite (Z.mod_small (m / 10)) by (split; [apply Z.div_pos|apply Z.div_lt_upper_bound]; lia).
  pose proof (Z.div_mod m 10 ltac:(lia)). lia.
Qed.

Lemma period_year_month (p : Period) :
  (p = 12 * (period_year p - 1970) + (period_month p - 1)
   /\ 1 <= period_month p <= 12)%Z.
Proof.
  unfold period_year, period_month.
  pose proof (Z.div_mod p 12 ltac:(lia)).
  pose proof (Z.mod_pos_bound p 12 ltac:(lia)). lia.
Qed.

(** For years on four digits the code point order of the labels is the
    chronological order of the months. *)
Lemma period_str_compare (p q : Period) :
  (0 <= period_year p <= 9999)%Z -> (0 <= period_year q <= 9999)%Z ->
  String.compare (period_str p) (period_str q) = (p ?= q)%Z.
Proof.
  intros Hp Hq. unfold period_str. cbn [String.compare].
  rewrite !ascii_compare_digit.
  replace (Ascii.compare "-" "-") with Eq by reflexivity.
  destruct (period_year_month p) as [Ep Hmp].
  destruct (period_year_month q) as [Eq' Hmq].
  pose proof (decimal4 _ Hp) as Dp. pose proof (decimal4 _ Hq) as Dq.
  pose proof (decimal2 (period_month p) ltac:(lia)) as Mp.
  pose proof (decimal2 (period_month q) ltac:(lia)) as Mq.
  rewrite Ep, Eq' at 7.
  revert Dp Dq Mp Mq.
  generalize (Z.mod_pos_bound (period_year p / 1000) 10 ltac:(lia))
             (Z.mod_pos_bound (period_year p / 100) 10 ltac:(lia))
             (Z.mod_pos_bound (period_year p / 10) 10 ltac:(lia))
             (Z.mod_pos_bound (period_year p) 10 ltac:(lia))
             (Z.mod_pos_bound (period_month p / 10) 10 ltac:(lia))
             (Z.mod_pos_bound (period_month p) 10 ltac:(lia))
             (Z.mod_pos_bound (period_year q / 1000) 10 ltac:(lia))
             (Z.mod_pos_bound (period_year q / 100) 10 ltac:(lia))
             (Z.mod_pos_bound (period_year q / 10) 10 ltac:(lia))
             (Z.mod_pos_bound (period_year q) 10 ltac:(lia))
             (Z.mod_pos_bound (period_month q / 10) 10 ltac:(lia))
             (Z.mod_pos_bound (period_month q) 10 ltac:(lia)).
  generalize ((period_year p / 1000) mod 10)%Z ((period_year p / 100) mod 10)%Z
             ((period_year p / 10) mod 10)%Z (period_year p mod 10)%Z
             ((period_month p / 10) mod 10)%Z (period_month p mod 10)%Z
             ((period_year q / 1000) mod 10)%Z ((period_year q / 100) mod 10)%Z
             ((period_year q / 10) mod 10)%Z (period_year q mod 10)%Z
             ((period_month q / 10) mod 10)%Z (period_month q mod 10)%Z.
  intros a3 a2 a1 a0 c1 c0 b3 b2 b1 b0 d1 d0.
  intros ? ? ? ? ? ? ? ? ? ? ? ? Dp Dq Mp Mq.
  symmetry.
  repeat match goal with
         | |- context [(?x ?= ?y)%Z] =>
             lazymatch x with
             | (_ + _)%Z => fail
             | _ => destruct (Z.compare_spec x y)
             end
         end;
    first [apply Z.compare_eq_iff | apply Z.compare_lt_iff | apply Z.compare_gt_iff];
    lia.
Qed.

Lemma period_year_to_period d : period_year (to_period d) = ts_year d.
Proof.
  unfold period_year, to_period.
  assert (Hm : (0 <= month_number (ts_month d) - 1 < 12)%Z)
    by (destruct (ts_month d); simpl; lia).
  rewrite Z.div_add_l by lia.
  rewrite Z.div_small by lia. lia.
Qed.

Lemma labels_sorted (months : list Period) :
  StronglySorted Z.lt months ->
  (forall m, m ∈ months -> (0 <= period_year m <= 9999)%Z) ->
  StronglySorted (fun a b => String.compare a b = Lt) (map period_str months).
Proof.
  induction 1 as [|m months Hs IH Hm]; intros Hrange; cbn [map]; constructor.
  - apply IH. intros m' Hm'. apply Hrange. now right.
  - apply Forall_map, Forall_forall. intros m' Hm'.
    rewrite period_str_compare.
    + rewrite Forall_forall in Hm. exact (Hm m' Hm').
    + apply Hrange. now left.
    + apply Hrange. now right.
Qed.

(** X13: when the years of all dates are on four digits, the month
    labels on the x axis of every trace of the trend chart, the income
    trace and each expense trace, ascend strictly in code point order, and
    each trace has as many values as labels: the order of the labels as
    strings is the chronological order. *)
Theorem trend_labels_ascend s r df :
  frames s !! r = Some df ->
  (forall t, t ∈ transactions df -> (0 <= ts_year (date t) <= 9999)%Z) ->
  exists fig s',
    create_spending_trend_chart r s = Ok (fig, s') /\
    forall name x y group, Scatter name x y group ∈ data fig ->
      length x = length y /\
      StronglySorted (fun a b => String.compare a b = Lt) x.
Proof.
  intros Hr Hyears. destruct (trend_chart_run _ _ _ Hr) as [new Hrun].
  eexists _, _. split; [exact Hrun|].
  intros name x y g. cbn [data trend_figure]. rewrite elem_of_cons.
  intros [Heq|Hin].
  - injection Heq as -> -> -> ->. split; [now rewrite !length_map|].
    rewrite <- (map_map fst period_str). apply labels_sorted.
    + unfold monthly_income. rewrite map_fst_groupby_sum.
      exact (sorted_keys_sorted _).
    + intros m Hm. unfold monthly_income in Hm.
      rewrite map_fst_groupby_sum, elem_of_sorted_keys in Hm.
      apply elem_of_income_months in Hm as (t & Ht & _ & <-).
      rewrite period_year_to_period. now apply Hyears.
  - unfold expense_traces in Hin.
    apply list_elem_of_fmap in Hin as (c & Heq & _).
    injection Heq as -> -> -> ->. split; [now rewrite !length_map|].
    set (table := monthly_expenses (expense_month_rows (transactions df))).
    replace (map _ (List.filter _ table))
      with (map period_str (map fst (category_points c table)))
      by (unfold category_points; now rewrite !map_map).
    apply labels_sorted.
    + apply category_points_sorted. unfold table, monthly_expenses.
      rewrite map_fst_groupby_sum. apply sorted_keys_sorted.
    + intros m Hm. apply list_elem_of_fmap in Hm as ([m' v] & -> & Hin).
      apply elem_of_category_points in Hin.
      unfold table, monthly_expenses in Hin.
      apply elem_of_groupby_sum in Hin as [Hk _].
      apply elem_of_expense_keys in Hk as (t & Ht & _ & _ & <-).
      cbn [fst]. rewrite period_year_to_period. now apply Hyears.
Qed.

Lemma trend_labels_ascend_witness :
  exists fig s',
    create_spending_trend_chart 0%nat sample_store = Ok (fig, s') /\
    forall name x y group, Scatter name x y group ∈ data fig ->
      length x = length y /\
      StronglySorted (fun a b => String.compare a b = Lt) x.
Proof.
  apply (trend_labels_ascend sample_store 0%nat (Frame sample_transactions)).
  - reflexivity.
  - intros t Ht. simpl in Ht.
    repeat (apply elem_of_cons in Ht as [->|Ht]; [simpl; lia|]).
    now apply elem_of_nil in Ht.
Defined.

(** ** Edge cases *)



Lemma filter_all_false {A} (p : A -> bool) (l : list A) :
  (forall x, x ∈ l -> p x = false) -> List.filter p l = [].
Proof.
  induction l as [|x l IH]; intros Hall; simpl; [reflexivity|].
  rewrite (Hall x) by now left. apply IH. intros y Hy. apply Hall. now right.
Qed.

(** X15: on a frame without income and without expenses, the empty frame
    included, [create_spending_trend_chart] raises nothing and draws the
    income trace alone, with no point. *)
Theorem trend_chart_without_amounts s r df :
  frames s !! r = Some df ->
  (forall t, t ∈ transactions df -> amount t == 0) ->
  exists fig s',
    create_spending_trend_chart r s = Ok (fig, s') /\
    data fig = [Scatter "Income" [] [] None].
Proof.
  intros Hr Hzero. destruct (trend_chart_run _ _ _ Hr) as [new Hrun].
  eexists _, _. split; [exact Hrun|].
  rewrite income_month_rows_eq, expense_month_rows_eq.
  rewrite (filter_all_false is_income), (filter_all_false is_expense).
  - reflexivity.
  - intros t Ht. apply is_expense_ge. rewrite (Hzero t Ht). apply Qle_refl.
  - intros t Ht. apply is_income_le. rewrite (Hzero t Ht). apply Qle_refl.
Qed.

Lemma trend_chart_without_amounts_witness :
  exists fig s',
    create_spending_trend_chart 0%nat (mkStore [Frame [zero_transaction]] 0)
      = Ok (fig, s') /\
    data fig = [Scatter "Income" [] [] None].
Proof.
  apply (trend_chart_without_amounts (mkStore [Frame [zero_transaction]] 0)
           0%nat (Frame [zero_transaction])).
  - reflexivity.
  - intros t Ht. apply list_elem_of_singleton in Ht as ->. reflexivity.
Defined.
